(** * react-form-enhancer: the form state provider and its collaborators

    A shallow embedding of [src/formStateProvider.ts] and of the event
    adaptors of [src/eventAdaptors.ts], together with the handler engine
    ([invokeHandler], [sanitizeErrors], [mergeErrors]) and the field-name
    check ([isDefinedName]) that the provider imports. *)

From Stdlib Require Import Floats.
From stdpp Require Import gmap strings list fin_maps.

Open Scope string_scope.
Open Scope list_scope.

(** ** JavaScript values *)

Module JS.

(** A value held by a form field or by one entry of an error mapping:
    the primitives, and objects known by their identity. Numbers are
    IEEE 754 doubles, as in the language. An object either is a plain one,
    or carries a [toJS] method, as the collections of Immutable do; of the
    latter the plain object that [toJS()] gives is named as well (for a
    collection a copy made for the occasion: a name no other object has). *)
Inductive value : Type :=
| Undefined
| Null
| Bool (b : bool)
| Number (x : float)
| String (s : string)
| Object (ref : nat)
| Collection (ref plain : nat).

(** [a === b]. Numbers compare as doubles (so [NaN === NaN] is false
    and [0 === -0] is true), objects by reference. *)
Definition strict_eq (a b : value) : bool :=
  match a, b with
  | Undefined, Undefined => true
  | Null, Null => true
  | Bool x, Bool y => Bool.eqb x y
  | Number x, Number y => PrimFloat.eqb x y
  | String x, String y => bool_decide (x = y)
  | Object x, Object y => Nat.eqb x y
  | Collection x _, Collection y _ => Nat.eqb x y
  | _, _ => false
  end.

(** [a !== b] *)
Definition strict_ne (a b : value) : bool := negb (strict_eq a b).

(** [v == null]: true of [null] and [undefined] only. *)
Definition is_nullish (v : value) : bool :=
  match v with
  | Undefined | Null => true
  | _ => false
  end.

(** A plain object used as a dictionary. *)
Abbreviation object := (gmap string value).

(** [o[name]]: reading a property that is not there gives [undefined]. *)
Definition get (o : object) (name : string) : value :=
  default Undefined (o !! name).

(** What [toJS()] of Immutable makes of an entry of a map: a value that
    carries a [toJS] method is replaced by what the method gives, a plain
    copy; every other value is handed over as it is. *)
Definition toJS (v : value) : value :=
  match v with
  | Collection _ plain => Object plain
  | _ => v
  end.

(** [Map(o).toJS()]: a copy of [o], every entry converted. *)
Definition copy (o : object) : object := toJS <$> o.

(** [Map(o).set(name, v).toJS()]: a copy of [o] with one key assigned,
    every entry converted, the assigned one as well. *)
Definition set (o : object) (name : string) (v : value) : object :=
  copy (<[name := v]> o).

(** A value of type [any] as it reaches the error sanitizer: a single
    value, or an object whose properties are inspected. *)
Inductive any : Type :=
| Single (v : value)
| Fields (o : object).

End JS.

Abbreviation FormValues := (gmap string JS.value).
Abbreviation FormErrors := (gmap string JS.value).

(** ** handlerEngine: the error model *)

(** The keys an error mapping may carry: the declared fields, and the
    pseudo-key of the whole form when sanitizing a submission result. *)
Definition permitted (definition : FormValues) (isForm : bool) (name : string) : bool :=
  bool_decide (is_Some (definition !! name)) || (isForm && bool_decide (name = "form")).

(** Modelled from the spec: [sanitizeErrors] of handlerEngine, of which
    only the declaration is at hand. A null or undefined input gives the
    empty mapping; a structured input is restricted to the permitted keys,
    every other key being dropped; a single message stands for each
    permitted key. *)
Definition sanitizeErrors (definition : FormValues) (newErrors : JS.any) (isForm : bool)
  : FormErrors :=
  match newErrors with
  | JS.Single v =>
      if JS.is_nullish v then ∅
      else (λ _, v) <$> (if isForm then <["form" := JS.Null]> definition else definition)
  | JS.Fields o => filter (λ kv, permitted definition isForm kv.1 = true) o
  end.

(** Modelled from the spec: [mergeErrors] of handlerEngine, of which only
    the declaration is at hand. The result is [oldError] except at [name],
    whose entry becomes the sanitized result for that one key ([null] when
    the sanitized mapping has none). *)
Definition mergeErrors (definition : FormValues) (oldError : FormErrors)
    (name : string) (newErrors : JS.any) : FormErrors :=
  let sanitized := sanitizeErrors definition newErrors (bool_decide (name = "form")) in
  <[name := default JS.Null (sanitized !! name)]> oldError.

(** ** Completions and the monad of a handler run *)

(** How a call ends: with a value, or abruptly with a thrown value. *)
Inductive Completion (A : Type) : Type :=
| Normal (a : A)
| Abrupt (e : JS.any).
Arguments Normal {A} a.
Arguments Abrupt {A} e.

(** A computation over a mutable context [S] that may throw. *)
Definition M (S A : Type) : Type := S → Completion A * S.

Definition ret {S A : Type} (a : A) : M S A := λ s, (Normal a, s).

Definition bind {S A B : Type} (m : M S A) (k : A → M S B) : M S B :=
  λ s, match m s with
       | (Normal a, s') => k a s'
       | (Abrupt e, s') => (Abrupt e, s')
       end.

Declare Scope js_scope.
Delimit Scope js_scope with js.
Notation "'let*' x := m 'in' k" := (bind m (λ x, k))
  (at level 10, x name, m at level 100, k at level 200) : js_scope.
Notation "m >> k" := (bind m (λ _, k))
  (at level 100, k at level 200, right associativity) : js_scope.

(** ** handlerEngine: the invocation engine *)

(** What an operation hands back when it returns: a plain result, or a
    promise that is still pending ([Promise<any> | HandlerResult<P>]). *)
Inductive HandlerValue : Type :=
| Plain (r : JS.any)
| Thenable.

(** How a pending promise ends, when it does. *)
Inductive Settlement : Type :=
| Fulfilled (v : JS.any)
| Rejected (reason : JS.any).

(** The two reactions attached to a pending promise. *)
Record Reaction (I : Type) : Type := {
  onFulfilled : I → I;
  onRejected : JS.any → I → I;
}.
Arguments onFulfilled {I} _.
Arguments onRejected {I} _ _.

(** The context of a run: the object the callbacks act on, and the
    promises that are pending with their reactions, oldest first. *)
Record Exec (I : Type) : Type := {
  this : I;
  awaiting : list (Reaction I);
}.
Arguments this {I} _.
Arguments awaiting {I} _.

(** [Inspector]: the instrumentation callback, called with any arguments. *)
Definition Inspector (I : Type) : Type := list JS.any → I → I.

Definition str (s : string) : JS.any := JS.Single (JS.String s).

(** The reactions the engine attaches to a pending promise: the callback,
    then the word to the inspector. *)
Definition thenReaction {I : Type} (name : string)
    (onResolve : I → I) (onReject : JS.any → I → I) (notify : Inspector I) : Reaction I :=
  {| onFulfilled := λ i, notify [str name; str "resolve"] (onResolve i);
     onRejected := λ reason i, notify [str name; str "reject"; reason] (onReject reason i) |}.

(** Modelled from the spec: [invokeHandler] of handlerEngine, of which only
    the declaration is at hand. The operation is run at once; a plain
    result resolves, a throw is caught and rejects with the thrown value,
    and a pending promise gets the two callbacks as its reactions. The
    inspector is told of the start and of the resolve or reject. *)
Definition invokeHandler {I : Type} (name : string) (handle : M I HandlerValue)
    (onResolve : I → I) (onReject : JS.any → I → I) (notify : Inspector I)
  : M (Exec I) unit :=
  λ x,
    match handle (notify [str name; str "start"] (this x)) with
    | (Normal (Plain _), i) =>
        (Normal (), {| this := notify [str name; str "resolve"] (onResolve i);
                       awaiting := awaiting x |})
    | (Abrupt reason, i) =>
        (Normal (), {| this := notify [str name; str "reject"; reason] (onReject reason i);
                       awaiting := awaiting x |})
    | (Normal Thenable, i) =>
        (Normal (), {| this := i;
                       awaiting := awaiting x ++ [thenReaction name onResolve onReject notify] |})
    end.

(** The reaction a settlement selects. *)
Definition react {I : Type} (r : Reaction I) (s : Settlement) : I → I :=
  match s with
  | Fulfilled _ => onFulfilled r
  | Rejected reason => onRejected r reason
  end.

(** The [i]-th pending promise settles: it leaves the pending ones and its
    reaction runs. A promise that is not pending (any more) has none. *)
Definition settlePromise {I : Type} (i : nat) (s : Settlement) (x : Exec I) : Exec I :=
  match awaiting x !! i with
  | Some r => {| this := react r s (this x); awaiting := delete i (awaiting x) |}
  | None => x
  end.

(** ** types: what the provider is given *)

(** A validator or the submitter: called with the values and the name it
    answers for, it returns, throws, or hands back a pending promise. What
    it may itself tell the inspector it is also given is left out. *)
Definition Handler : Type := FormValues → string → Completion HandlerValue.

(** The object given as [validators]: its own entries, each of which may
    hold null or undefined ([None]), and the members it inherits from its
    prototype, for an object literal those of [Object.prototype], each with
    what it does when it is called the way a validator is. *)
Record Registry : Type := {
  own : gmap string (option Handler);
  inherited : gmap string Handler;
}.

(** [registry[name]]: an own entry if there is one, whatever it holds, and
    the inherited member of that name otherwise. *)
Definition member (registry : Registry) (name : string) : option Handler :=
  match own registry !! name with
  | Some entry => entry
  | None => inherited registry !! name
  end.

(** [ProviderProps<P>]. [defaultValues] and [submitter] are required,
    [validators] may be missing. The optional inspector is the reader of
    the [Notified] entries of the trace below. *)
Record ProviderProps : Type := {
  defaultValues : FormValues;
  submitter : Handler;
  validators : option Registry;
}.

(** [React.FormEvent], as far as [submit] looks at it. *)
Record FormEvent : Type := {
  preventDefault : bool;  (* does the event carry the method? *)
}.

(** ** formStateProvider: the component *)

(** [ProviderState] *)
Record ProviderState : Type := {
  values : FormValues;
  errors : FormErrors;
  isSubmitting : bool;
}.

(** The argument of [setState]: the keys it names are assigned, the others
    are kept. *)
Record StateUpdate : Type := {
  newValues : option FormValues;
  newErrors : option FormErrors;
  newIsSubmitting : option bool;
}.

(** The shallow merge [setState] asks for. *)
Definition assign (s : ProviderState) (u : StateUpdate) : ProviderState :=
  {| values := default (values s) (newValues u);
     errors := default (errors s) (newErrors u);
     isSubmitting := default (isSubmitting s) (newIsSubmitting u) |}.

(** What the component does towards the outside, in order. *)
Inductive Observation : Type :=
| Notified (args : list JS.any)                   (* this.notify(...args) *)
| Invoked (name : string) (given : FormValues)    (* a validator or the submitter is called *)
| Warned (warnFor name : string)                  (* the field-name check reports *)
| DefaultPrevented.                               (* event.preventDefault() *)

(** An instance of the class [FormStateProvider], between two events. *)
Record FormStateProvider : Type := {
  props : ProviderProps;
  state : ProviderState;
  canSetStateFromAsync : bool;
  trace : list Observation;
}.

(** The instance while a handler runs. Inside an event handler React
    collects the [setState] calls ([Some] queue) and [this.state] keeps its
    value until the handler is over; elsewhere ([None]) [setState] assigns
    at once. React takes [setState] from a mounted instance only, and the
    instance is mounted from [componentWillMount] to
    [componentWillUnmount]: while [canSetStateFromAsync], which those two
    alone assign, is up. *)
Record Live : Type := {
  instance : FormStateProvider;
  batch : option (list StateUpdate);
}.

(** Adding to the trace, and assigning the flag. *)
Definition observe (o : Observation) (l : Live) : Live :=
  {| instance := {| props := props (instance l);
                    state := state (instance l);
                    canSetStateFromAsync := canSetStateFromAsync (instance l);
                    trace := trace (instance l) ++ [o] |};
     batch := batch l |}.

Definition setCanSetStateFromAsync (b : bool) (l : Live) : Live :=
  {| instance := {| props := props (instance l);
                    state := state (instance l);
                    canSetStateFromAsync := b;
                    trace := trace (instance l) |};
     batch := batch l |}.

(** [this.setState(u)]. On an instance that is not mounted, not yet or
    not any more, React drops the update and [this.state] stays. *)
Definition setState (u : StateUpdate) (l : Live) : Live :=
  if canSetStateFromAsync (instance l) then
    match batch l with
    | Some queue => {| instance := instance l; batch := Some (queue ++ [u]) |}
    | None =>
        {| instance := {| props := props (instance l);
                          state := assign (state (instance l)) u;
                          canSetStateFromAsync := canSetStateFromAsync (instance l);
                          trace := trace (instance l) |};
           batch := None |}
    end
  else l.

(** The end of a handler: the collected updates are assigned in order. *)
Definition flush (l : Live) : FormStateProvider :=
  {| props := props (instance l);
     state := fold_left assign (default [] (batch l)) (state (instance l));
     canSetStateFromAsync := canSetStateFromAsync (instance l);
     trace := trace (instance l) |}.

(** [this.notify(...args)] *)
Definition notify : Inspector Live := λ args, observe (Notified args).

(** Modelled from the spec: [isDefinedName] of definitionChecker, which is
    not among the sources. Given the declared fields, a candidate name and
    the label of the caller, it tells whether the name is declared, and
    reports a name that is not. *)
Definition isDefinedName (definition : FormValues) (name warnFor : string) : M Live bool :=
  λ l, if bool_decide (is_Some (definition !! name)) then (Normal true, l)
       else (Normal false, observe (Warned warnFor name) l).

(** Running a method of the instance, calling one that cannot throw, and
    reading the instance, inside a handler. *)
Definition on_this {I A : Type} (m : M I A) : M (Exec I) A :=
  λ x, let '(c, i) := m (this x) in (c, {| this := i; awaiting := awaiting x |}).

Definition call {I : Type} (f : I → I) : M (Exec I) unit :=
  λ x, (Normal (), {| this := f (this x); awaiting := awaiting x |}).

Definition read {A : Type} (f : FormStateProvider → A) : M (Exec Live) A :=
  λ x, (Normal (f (instance (this x))), x).

(** [constructor(props)]: the values start as the defaults, the flag is
    down until the component is mounted. *)
Definition constructor (p : ProviderProps) : FormStateProvider :=
  {| props := p;
     state := {| values := defaultValues p; errors := ∅; isSubmitting := false |};
     canSetStateFromAsync := false;
     trace := [] |}.

(** [componentWillMount()] *)
Definition componentWillMount (l : Live) : Live :=
  notify [str "mount"; str "form"] (setCanSetStateFromAsync true l).

(** [componentWillUnmount()] *)
Definition componentWillUnmount (l : Live) : Live :=
  setCanSetStateFromAsync false (notify [str "unmount"; str "form"] l).

(** The loop of [isPristine] over [Object.keys(this.state.values)]. *)
Fixpoint isPristine_from (names : list string) (current defaults : FormValues) : bool :=
  match names with
  | [] => true
  | name :: rest =>
      if JS.strict_ne (JS.get current name) (JS.get defaults name) then false
      else isPristine_from rest current defaults
  end.

(** [isPristine()]. The order in which the keys are visited does not
    matter to the outcome. *)
Definition isPristine (c : FormStateProvider) : bool :=
  isPristine_from (map_to_list (values (state c))).*1
    (values (state c)) (defaultValues (props c)).

(** The loop of [hasError] over [Object.keys(this.state.errors)]. *)
Fixpoint hasError_from (names : list string) (errs : FormErrors) : bool :=
  match names with
  | [] => false
  | name :: rest =>
      if negb (JS.is_nullish (JS.get errs name)) then true
      else hasError_from rest errs
  end.

(** [hasError()] *)
Definition hasError (c : FormStateProvider) : bool :=
  hasError_from (map_to_list (errors (state c))).*1 (errors (state c)).

(** [updateErrors(name, newErrors)] *)
Definition updateErrors (name : string) (newErrors : JS.any) (l : Live) : Live :=
  if canSetStateFromAsync (instance l) then
    let errors :=
      mergeErrors (defaultValues (props (instance l))) (errors (state (instance l)))
        name newErrors in
    setState {| newValues := None; newErrors := Some errors; newIsSubmitting := None |} l
  else l.

Open Scope js_scope.

(** [invokeValidator(name, newValue)]. The operation handed to the engine
    calls the validator on the values held, overridden at [name]. *)
Definition invokeValidator (name : string) (newValue : JS.value) : M (Exec Live) unit :=
  let* registry := read (λ c, validators (props c)) in
  match registry with
  | None => ret ()
  | Some registry =>
      match member registry name with
      | None => ret ()
      | Some validator =>
          let* held := read (λ c, values (state c)) in
          let currentValues := JS.set held name newValue in
          invokeHandler name
            (λ l, (validator currentValues name, observe (Invoked name currentValues) l))
            (updateErrors name (JS.Single JS.Null))
            (λ reason, updateErrors name reason)
            notify
      end
  end.

(** [change(name, newValue, validateConcurrently = true)] *)
Definition change (name : string) (newValue : JS.value) (validateConcurrently : option bool)
  : M (Exec Live) unit :=
  let validateConcurrently := default true validateConcurrently in
  let* definition := read (λ c, defaultValues (props c)) in
  let* defined := on_this (isDefinedName definition name "props.formChange") in
  if defined then
    let* held := read (λ c, values (state c)) in
    call (setState {| newValues := Some (JS.set held name newValue);
                      newErrors := None; newIsSubmitting := None |}) >>
    call (notify [str "props.formChange"; str name; JS.Single newValue]) >>
    if validateConcurrently then invokeValidator name newValue else ret ()
  else ret ().

(** [validate(name)] *)
Definition validate (name : string) : M (Exec Live) unit :=
  let* definition := read (λ c, defaultValues (props c)) in
  let* defined := on_this (isDefinedName definition name "props.formValidate") in
  if defined then
    let* held := read (λ c, values (state c)) in
    invokeValidator name (JS.get held name) >>
    call (notify [str "props.formValidate"; str name])
  else ret ().

(** [endSubmitting()] *)
Definition endSubmitting (l : Live) : Live :=
  if canSetStateFromAsync (instance l) then
    setState {| newValues := None; newErrors := None; newIsSubmitting := Some false |} l
  else l.

(** [submit(event?)]. The operation handed to the engine reads the values
    when it is run, and hands a copy of them to the submitter. *)
Definition submit (event : option FormEvent) : M (Exec Live) unit :=
  match event with
  | Some e => if preventDefault e then call (observe DefaultPrevented) else ret ()
  | None => ret ()
  end >>
  call (setState {| newValues := None; newErrors := None; newIsSubmitting := Some true |}) >>
  call (notify [str "form"; str "props.formSubmit"]) >>
  invokeHandler "form"
    (λ l, let given := JS.copy (values (state (instance l))) in
          (submitter (props (instance l)) given "form", observe (Invoked "form" given) l))
    (λ l, endSubmitting (updateErrors "form" (JS.Single JS.Null) l))
    (λ reason l, endSubmitting (updateErrors "form" reason l))
    notify.

(** [reset()] *)
Definition reset (l : Live) : Live :=
  if canSetStateFromAsync (instance l) then
    notify [str "props.formReset"; str "form"]
      (setState {| newValues := Some (defaultValues (props (instance l)));
                   newErrors := Some ∅; newIsSubmitting := Some false |} l)
  else l.

(** What [render] hands to the wrapped form, the data part. *)
Record FormProps : Type := {
  formValues : FormValues;
  formErrors : FormErrors;
  formIsSubmitting : bool;
  formIsPristine : bool;
  formHasError : bool;
}.

Definition render (c : FormStateProvider) : FormProps :=
  {| formValues := values (state c);
     formErrors := errors (state c);
     formIsSubmitting := isSubmitting (state c);
     formIsPristine := isPristine c;
     formHasError := hasError c |}.

(** ** eventAdaptors *)

Module DOM.

(** [WellknownElement], as far as the adaptors read it. *)
Record Element : Type := {
  type : string;
  name : string;
  value : string;
  checked : bool;
}.

(** [React.ChangeEvent] and [React.FocusEvent] *)
Record Event : Type := {
  target : Element;
  currentTarget : Element;
}.

End DOM.

(** [focusAdaptor] *)
Definition focusAdaptor {R : Type} (prop : string → R) : DOM.Event → R :=
  λ e, prop (DOM.name (DOM.currentTarget e)).

(** [changeAdaptor], with [validateConcurrently = true] by default. *)
Definition changeAdaptor {R : Type} (prop : string → JS.value → option bool → R)
    (validateConcurrently : option bool) : DOM.Event → R :=
  let validateConcurrently := default true validateConcurrently in
  λ e,
    let value :=
      if JS.strict_ne (JS.String (DOM.type (DOM.target e))) (JS.String "checkbox")
      then JS.String (DOM.value (DOM.target e))
      else JS.Bool (DOM.checked (DOM.target e)) in
    prop (DOM.name (DOM.target e)) value (Some validateConcurrently).

(** ** The component in its event loop *)

(** The instance and the promises its handlers left pending. *)
Record World : Type := {
  provider : FormStateProvider;
  pending : list (Reaction Live);
}.

(** One turn of the event loop: a handler runs on the instance, inside a
    React event handler ([batched]) or not, and the collected state updates
    are assigned when it is over. *)
Definition dispatch (batched : bool) (m : M (Exec Live) unit) (w : World)
  : Completion unit * World :=
  let '(c, x) :=
    m {| this := {| instance := provider w; batch := if batched then Some [] else None |};
         awaiting := pending w |} in
  (c, {| provider := flush (this x); pending := awaiting x |}).

(** The entry points handed to the wrapped form by [render]. *)
Definition formChange (batched : bool) (name : string) (value : JS.value)
    (validateConcurrently : option bool) : World → Completion unit * World :=
  dispatch batched (change name value validateConcurrently).

Definition formValidate (batched : bool) (name : string) : World → Completion unit * World :=
  dispatch batched (validate name).

Definition formSubmit (batched : bool) (event : option FormEvent)
  : World → Completion unit * World :=
  dispatch batched (submit event).

Definition formReset (batched : bool) : World → Completion unit * World :=
  dispatch batched (call reset).

(** [formOnChange: changeAdaptor(this.change)] *)
Definition formOnChange (batched : bool) : DOM.Event → World → Completion unit * World :=
  changeAdaptor (formChange batched) None.

(** [formOnValidate: focusAdaptor(this.validate)] *)
Definition formOnValidate (batched : bool) : DOM.Event → World → Completion unit * World :=
  focusAdaptor (formValidate batched).

(** A pending promise settles and its reaction runs. *)
Definition settle (batched : bool) (i : nat) (s : Settlement)
  : World → Completion unit * World :=
  dispatch batched (λ x, (Normal (), settlePromise i s x)).

(** A component fresh from its constructor. *)
Definition create (p : ProviderProps) : World :=
  {| provider := constructor p; pending := [] |}.

(** What can happen to a component. *)
Inductive Action : Type :=
| Mount
| Unmount
| Change (name : string) (value : JS.value) (validateConcurrently : option bool)
| Validate (name : string)
| Submit (event : option FormEvent)
| Reset
| OnChange (e : DOM.Event)
| OnValidate (e : DOM.Event)
| Settle (i : nat) (s : Settlement).

(** One action, in a turn of its own. *)
Definition step (batched : bool) (a : Action) (w : World) : Completion unit * World :=
  match a with
  | Mount => dispatch batched (call componentWillMount) w
  | Unmount => dispatch batched (call componentWillUnmount) w
  | Change name value validateConcurrently => formChange batched name value validateConcurrently w
  | Validate name => formValidate batched name w
  | Submit event => formSubmit batched event w
  | Reset => formReset batched w
  | OnChange e => formOnChange batched e w
  | OnValidate e => formOnValidate batched e w
  | Settle i s => settle batched i s w
  end.

(** A run: the actions in order, each in its own turn. *)
Definition run (batched : bool) (actions : list Action) (w : World) : World :=
  fold_left (λ w a, (step batched a w).2) actions w.

(** The worlds a component created from [p] can be in. *)
Inductive reachable (p : ProviderProps) : World → Prop :=
| reachable_create : reachable p (create p)
| reachable_step (batched : bool) (a : Action) (w : World) :
    reachable p w → reachable p (step batched a w).2.

(** The calls of validators and of the submitter that a trace records. *)
Fixpoint invocations (t : list Observation) : list (string * FormValues) :=
  match t with
  | [] => []
  | Invoked name given :: rest => (name, given) :: invocations rest
  | _ :: rest => invocations rest
  end.

(** The reactions the component attaches: those of [invokeValidator] for a
    field, and those of [submit]. *)
Definition validatorReaction (name : string) : Reaction Live :=
  thenReaction name (updateErrors name (JS.Single JS.Null))
    (λ reason, updateErrors name reason) notify.

Definition submitReaction : Reaction Live :=
  thenReaction "form"
    (λ l, endSubmitting (updateErrors "form" (JS.Single JS.Null) l))
    (λ reason l, endSubmitting (updateErrors "form" reason l)) notify.

(** The reactions of the component. *)
Inductive attached : Reaction Live → Prop :=
| attached_validator (name : string) : attached (validatorReaction name)
| attached_submit : attached submitReaction.

(** What a completed submission leaves on a mounted component: the outcome
    merged at the key of the form, and the submitting flag cleared. *)
Definition submitted (c : FormStateProvider) (outcome : JS.any) : ProviderState :=
  {| values := values (state c);
     errors := mergeErrors (defaultValues (props c)) (errors (state c)) "form" outcome;
     isSubmitting := false |}.

(** What the start of a submission leaves: the submitting flag raised. *)
Definition submitting (c : FormStateProvider) : ProviderState :=
  {| values := values (state c); errors := errors (state c); isSubmitting := true |}.

(** ** A host to probe the engine with *)

Module Probe.

(** A host that only records what the engine calls. *)
Inductive Call : Type :=
| Resolve
| Reject (reason : JS.any)
| Notify (args : list JS.any).

Definition onResolve (h : list Call) : list Call := h ++ [Resolve].
Definition onReject (reason : JS.any) (h : list Call) : list Call := h ++ [Reject reason].
Definition notify : Inspector (list Call) := λ args h, h ++ [Notify args].

(** The calls of the two callbacks among the recorded ones. *)
Fixpoint callbacks (h : list Call) : list Call :=
  match h with
  | [] => []
  | Notify _ :: rest => callbacks rest
  | c :: rest => c :: callbacks rest
  end.

(** The ways an operation completes. *)
Inductive Behaviour : Type :=
| Returns (r : JS.any)
| Throws (e : JS.any)
| Settles (s : Settlement).

Definition operation (b : Behaviour) : M (list Call) HandlerValue :=
  λ h, match b with
       | Returns r => (Normal (Plain r), h)
       | Throws e => (Abrupt e, h)
       | Settles _ => (Normal Thenable, h)
       end.

(** The engine is invoked on the operation; a promise it has handed back
    settles afterwards. *)
Definition invoke (name : string) (b : Behaviour) : M (Exec (list Call)) unit :=
  invokeHandler name (operation b) onResolve onReject notify.

Definition complete (name : string) (b : Behaviour) (x : Exec (list Call))
  : Completion unit * Exec (list Call) :=
  let '(c, x') := invoke name b x in
  match b with
  | Settles s => (c, settlePromise (length (awaiting x)) s x')
  | _ => (c, x')
  end.

(** The one call an operation is entitled to. *)
Definition expected (b : Behaviour) : Call :=
  match b with
  | Returns _ => Resolve
  | Throws e => Reject e
  | Settles (Fulfilled _) => Resolve
  | Settles (Rejected reason) => Reject reason
  end.

End Probe.

(** ** Examples *)

Module Examples.

(** What a built-in method throws when it is called on nothing. *)
Definition typeError : JS.any := JS.Single (JS.Object 0).

(** The members of [Object.prototype], called the way a validator is:
    detached, with the values as first argument. *)
Definition objectPrototype : gmap string Handler :=
  {[ "constructor" := λ given _, Normal (Plain (JS.Fields given));
     "toString" := λ _ _, Normal (Plain (str "[object Undefined]"));
     "toLocaleString" := λ _ _, Abrupt typeError;
     "valueOf" := λ _ _, Abrupt typeError;
     "hasOwnProperty" := λ _ _, Abrupt typeError;
     "isPrototypeOf" := λ _ _, Abrupt typeError;
     "propertyIsEnumerable" := λ _ _, Abrupt typeError ]}.

(** The validators of [signup]: an object literal with one entry. *)
Definition remoteAge : Registry :=
  {| own := {[ "age" := Some (λ _ _, Normal Thenable) ]};
     inherited := objectPrototype |}.

(** Two fields; [age] is validated by a remote check, the submitter is
    remote as well. *)
Definition signup : ProviderProps :=
  {| defaultValues := {[ "email" := JS.String ""; "age" := JS.Number 0 ]};
     submitter := λ _ _, Normal Thenable;
     validators := Some remoteAge |}.

(** One field that holds an Immutable list, and one whose name is that of
    a member every object literal inherits. *)
Definition tags : ProviderProps :=
  {| defaultValues := {[ "tags" := JS.Collection 1 2; "valueOf" := JS.String "" ]};
     submitter := λ _ _, Normal Thenable;
     validators := Some {| own := ∅; inherited := objectPrototype |} |}.

(** One numeric field whose default is not a number. *)
Definition ratio : ProviderProps :=
  {| defaultValues := {[ "ratio" := JS.Number nan ]};
     submitter := λ _ _, Normal (Plain (JS.Single JS.Null));
     validators := None |}.

End Examples.

(** * Properties *)

(** ** Basic facts *)

Lemma invocations_app (t u : list Observation) :
  invocations (t ++ u) = invocations t ++ invocations u.
Proof.
  induction t as [|o t IH]; [done|].
  destruct o; simpl; by rewrite IH.
Qed.

Lemma toJS_again (v : JS.value) : JS.toJS (JS.toJS v) = JS.toJS v.
Proof. by destruct v. Qed.

Lemma set_lookup (o : JS.object) (name other : string) (v : JS.value) :
  JS.set o name v !! other
  = if decide (name = other) then Some (JS.toJS v) else JS.toJS <$> o !! other.
Proof.
  unfold JS.set, JS.copy. rewrite lookup_fmap, lookup_insert. by case_decide.
Qed.

Lemma set_again (o : JS.object) (name : string) (v : JS.value) :
  JS.set (JS.set o name v) name v = JS.set o name v.
Proof.
  apply map_eq. intros other. rewrite !set_lookup. case_decide; [done|].
  destruct (o !! other) as [x|]; simpl; [|done]. by rewrite toJS_again.
Qed.

Arguments JS.set : simpl never.
Arguments JS.copy : simpl never.
Arguments member : simpl never.
Arguments JS.get : simpl never.
Arguments mergeErrors : simpl never.

(** Running a handler on a world whose parts are known: the definitions of
    this file are unfolded and the projections computed; the maps, the
    props and the handlers of the caller stay as they are. *)
Ltac unfold_handlers :=
  lazy [formChange formValidate formSubmit formReset formOnChange formOnValidate
        settle dispatch step changeAdaptor focusAdaptor
        change validate submit reset invokeValidator invokeHandler
        settlePromise react bind ret call read on_this isDefinedName
        updateErrors endSubmitting notify observe setState flush
        componentWillMount componentWillUnmount setCanSetStateFromAsync
        validatorReaction submitReaction thenReaction onFulfilled onRejected
        this awaiting instance batch props state canSetStateFromAsync trace
        provider pending fst snd
        assign values errors isSubmitting newValues newErrors newIsSubmitting
        preventDefault default from_option id].

Ltac eval_handlers := unfold_handlers; cbn [app fold_left]; unfold_handlers.

(** The same, leaving the methods that act on the instance folded: enough
    to follow which promises a handler leaves pending. *)
Ltac eval_control :=
  lazy [formChange formValidate formSubmit formReset formOnChange formOnValidate
        settle dispatch step changeAdaptor focusAdaptor
        change validate submit invokeValidator invokeHandler
        settlePromise bind ret call read on_this isDefinedName
        this awaiting provider pending fst snd
        preventDefault default from_option id].

Ltac case_innermost x :=
  lazymatch x with
  | context [match ?y with _ => _ end] => case_innermost y
  | _ => destruct x eqn:?
  end.

(** ... and where the run depends on what a lookup or a handler gives, by
    cases on it. *)
Ltac eval_cases :=
  eval_handlers;
  repeat (match goal with
          | |- context [match ?x with _ => _ end] => case_innermost x
          end; eval_handlers).

Ltac eval_control_cases :=
  eval_control;
  repeat (match goal with
          | |- context [match ?x with _ => _ end] => case_innermost x
          end; eval_control).

(** ** C1: completions after unmount *)

(** The handlers attach no other reactions than their own. *)
Lemma formChange_pending (batched : bool) (name : string) (value : JS.value)
    (validateConcurrently : option bool) (w : World) :
  pending (formChange batched name value validateConcurrently w).2 = pending w
  ∨ pending (formChange batched name value validateConcurrently w).2
    = pending w ++ [validatorReaction name].
Proof.
  destruct w as [c pend], validateConcurrently as [[|]|]; eval_control_cases; auto.
Qed.

Lemma formValidate_pending (batched : bool) (name : string) (w : World) :
  pending (formValidate batched name w).2 = pending w
  ∨ pending (formValidate batched name w).2 = pending w ++ [validatorReaction name].
Proof.
  destruct w as [c pend]; eval_control_cases; auto.
Qed.

Lemma formSubmit_pending (batched : bool) (event : option FormEvent) (w : World) :
  pending (formSubmit batched event w).2 = pending w
  ∨ pending (formSubmit batched event w).2 = pending w ++ [submitReaction].
Proof.
  destruct w as [c pend], event as [[[|]]|]; eval_control_cases; auto.
Qed.

Lemma delete_absent {A : Type} (l : list A) (i : nat) :
  l !! i = None → delete i l = l.
Proof.
  revert i. induction l as [|a l IH]; intros [|i] Hi; try done.
  simpl. f_equal. by apply IH.
Qed.

Lemma settle_pending (batched : bool) (i : nat) (s : Settlement) (w : World) :
  pending (settle batched i s w).2 = delete i (pending w).
Proof.
  destruct w as [c pend]. eval_handlers.
  destruct (pend !! i) eqn:Hi; eval_handlers; [done|].
  symmetry. by apply delete_absent.
Qed.

Lemma attached_app (l : list (Reaction Live)) (r : Reaction Live) :
  Forall attached l → attached r → Forall attached (l ++ [r]).
Proof. intros Hl Hr. apply Forall_app. split; [done|]. by constructor. Qed.

Lemma step_attached (batched : bool) (a : Action) (w : World) :
  Forall attached (pending w) → Forall attached (pending (step batched a w).2).
Proof.
  intros Hw. destruct a; unfold step.
  - by destruct w.
  - by destruct w.
  - destruct (formChange_pending batched name value validateConcurrently w) as [-> | ->];
      [done|]. apply attached_app; [done | constructor].
  - destruct (formValidate_pending batched name w) as [-> | ->];
      [done|]. apply attached_app; [done | constructor].
  - destruct (formSubmit_pending batched event w) as [-> | ->];
      [done|]. apply attached_app; [done | constructor].
  - by destruct w as [[p s [|] t] pend], batched.
  - unfold formOnChange, changeAdaptor.
    match goal with |- context [formChange batched ?n ?v ?c w] =>
      destruct (formChange_pending batched n v c w) as [-> | ->] end;
      [done|]. apply attached_app; [done | constructor].
  - unfold formOnValidate, focusAdaptor.
    match goal with |- context [formValidate batched ?n w] =>
      destruct (formValidate_pending batched n w) as [-> | ->] end;
      [done|]. apply attached_app; [done | constructor].
  - rewrite settle_pending. by apply Forall_delete.
Qed.

Lemma reachable_attached (p : ProviderProps) (w : World) :
  reachable p w → Forall attached (pending w).
Proof.
  induction 1 as [|batched a w _ IH]; [constructor|]. by apply step_attached.
Qed.

Lemma reachable_run (p : ProviderProps) (batched : bool) (actions : list Action) (w : World) :
  reachable p w → reachable p (run batched actions w).
Proof.
  revert w. induction actions as [|a actions IH]; intros w Hw; [done|].
  apply IH. by constructor.
Qed.

(** With the flag down, a reaction of the component touches neither the
    state nor the collected updates: it only tells the inspector. *)
Lemma attached_discarded (r : Reaction Live) (s : Settlement) (l : Live) :
  attached r →
  canSetStateFromAsync (instance l) = false →
  state (instance (react r s l)) = state (instance l)
  ∧ batch (react r s l) = batch l
  ∧ canSetStateFromAsync (instance (react r s l)) = false.
Proof.
  intros Hr Hflag. destruct l as [[p st flag t] q]. simpl in Hflag. subst flag.
  destruct Hr, s; by eval_handlers.
Qed.

(** C1. On a component that has been unmounted (the flag is down), the
    completion of a pending validator or submitter, be it fulfilled or
    rejected, changes nothing of the state: values, errors and the
    submitting flag stay as they were. *)
Theorem post_unmount_silence (p : ProviderProps) (w : World)
    (batched : bool) (i : nat) (s : Settlement) :
  reachable p w →
  canSetStateFromAsync (provider w) = false →
  state (provider (settle batched i s w).2) = state (provider w).
Proof.
  intros Hreach Hflag. apply reachable_attached in Hreach.
  destruct w as [c pend]. unfold settle, dispatch, settlePromise. simpl in *.
  destruct (pend !! i) as [r|] eqn:Hi; simpl.
  - assert (Hr : attached r) by (eapply Forall_lookup_1; eauto).
    destruct (attached_discarded r s
                {| instance := c; batch := if batched then Some [] else None |} Hr Hflag)
      as (Hstate & Hbatch & _).
    unfold flush. simpl. rewrite Hstate, Hbatch. by destruct batched.
  - by destruct batched.
Qed.

Lemma post_unmount_silence_witness :
  let w := run false [Mount; Submit None; Unmount] (create Examples.signup) in
  canSetStateFromAsync (provider w) = false
  ∧ state (provider (settle false 0 (Rejected (str "server error")) w).2)
    = state (provider w).
Proof.
  intros w. split; [reflexivity|].
  apply (post_unmount_silence Examples.signup);
    [apply reachable_run; constructor | reflexivity].
Defined.

(** ** C2: calls after unmount *)

(** C2. With the mounted flag down, [change], [validate] and [submit]
    each complete normally and leave the state (values, errors and the
    submitting flag) exactly as it was: what they ask of [setState] is
    dropped on an instance that is not mounted, and what they trigger is
    guarded by the flag. *)
Theorem calls_after_unmount (w : World) (batched : bool) (name : string)
    (value : JS.value) (validateConcurrently : option bool) (event : option FormEvent) :
  canSetStateFromAsync (provider w) = false →
  (formChange batched name value validateConcurrently w).1 = Normal ()
  ∧ state (provider (formChange batched name value validateConcurrently w).2)
    = state (provider w)
  ∧ (formValidate batched name w).1 = Normal ()
  ∧ state (provider (formValidate batched name w).2) = state (provider w)
  ∧ (formSubmit batched event w).1 = Normal ()
  ∧ state (provider (formSubmit batched event w).2) = state (provider w).
Proof.
  intros Hflag. destruct w as [[p [vals errs sub] flag t] pend]. simpl in Hflag. subst flag.
  destruct batched; repeat split.
  1,2,7,8: by destruct validateConcurrently as [[|]|]; eval_cases.
  1,2,5,6: by eval_cases.
  all: by destruct event as [[[|]]|]; eval_cases.
Qed.

Lemma calls_after_unmount_witness :
  let w := run true [Mount; Change "age" (JS.Number 42) (Some false); Unmount]
             (create Examples.signup) in
  canSetStateFromAsync (provider w) = false
  ∧ state (provider (formChange true "email" (JS.String "a@b.com") None w).2)
    = state (provider w)
  ∧ state (provider (formValidate true "age" w).2) = state (provider w)
  ∧ state (provider (formSubmit true None w).2) = state (provider w).
Proof.
  intros w.
  destruct (calls_after_unmount w true "email" (JS.String "a@b.com") None None)
    as (_ & Hchange & _ & _ & _ & Hsubmit); [reflexivity|].
  destruct (calls_after_unmount w true "age" JS.Null None None)
    as (_ & _ & _ & Hvalidate & _); [reflexivity|].
  by repeat split.
Defined.

(** ** C3: reset *)

(** C3, as the code has it. [reset] is guarded by the mounted flag: on a
    mounted component it puts the values back to the defaults, empties the
    errors and clears the submitting flag; on one that is not mounted it
    does nothing. *)
Theorem reset_when_mounted (w : World) (batched : bool) :
  (formReset batched w).1 = Normal ()
  ∧ state (provider (formReset batched w).2) =
      (if canSetStateFromAsync (provider w)
       then {| values := defaultValues (props (provider w));
               errors := ∅;
               isSubmitting := false |}
       else state (provider w))
  ∧ pending (formReset batched w).2 = pending w.
Proof.
  destruct w as [[p s [|] t] pend], batched; repeat split; by eval_handlers.
Qed.

(** C3, as stated, fails: after unmount [reset] leaves changed values (and
    a raised submitting flag) alone. *)
Lemma reset_unconditional_counterexample :
  let w := run true [Mount; Change "email" (JS.String "a@b.com") None; Submit None; Unmount]
             (create Examples.signup) in
  values (state (provider (formReset true w).2)) ≠ defaultValues Examples.signup
  ∧ isSubmitting (state (provider (formReset true w).2)) = true.
Proof.
  split; [|reflexivity].
  intros H. apply (f_equal (λ m : FormValues, m !! "email")) in H.
  vm_compute in H. discriminate.
Qed.

(** ** C4: merge is local *)

(** C4. Merging an outcome for the key [A] into the errors [E] leaves the
    entry of every other key [B] as it is in [E]. *)
Theorem mergeErrors_local (definition : FormValues) (E : FormErrors)
    (A B : string) (outcome : JS.any) :
  B ≠ A →
  mergeErrors definition E A outcome !! B = E !! B.
Proof.
  intros Hne. unfold mergeErrors. by rewrite lookup_insert_ne.
Qed.

Lemma mergeErrors_local_witness :
  mergeErrors {[ "age" := JS.Number 0 ]} {[ "email" := JS.String "taken" ]} "age"
    (JS.Single (JS.String "too young")) !! "email"
  = Some (JS.String "taken").
Proof.
  rewrite (mergeErrors_local _ _ "age" "email"); [reflexivity | discriminate].
Defined.

(** ** C5: the invocation engine *)

Lemma callbacks_app (h k : list Probe.Call) :
  Probe.callbacks (h ++ k) = Probe.callbacks h ++ Probe.callbacks k.
Proof.
  induction h as [|c h IH]; [done|].
  destruct c; simpl; by rewrite IH.
Qed.

(** C5. Whatever the operation does once it completes (return, throw, or
    hand back a promise that settles), the engine itself completes
    normally and exactly one callback is called, once: [onResolve] for a
    return or a fulfilled promise, [onReject] with the thrown or rejected
    value otherwise. While a promise is pending none is called yet, and
    once it has settled it is pending no more. *)
Theorem invokeHandler_exactly_once (name : string) (b : Probe.Behaviour)
    (x : Exec (list Probe.Call)) :
  (Probe.complete name b x).1 = Normal ()
  ∧ Probe.callbacks (this (Probe.complete name b x).2)
    = Probe.callbacks (this x) ++ [Probe.expected b]
  ∧ awaiting (Probe.complete name b x).2 = awaiting x
  ∧ match b with
    | Probe.Settles _ =>
        Probe.callbacks (this (Probe.invoke name b x).2) = Probe.callbacks (this x)
        ∧ length (awaiting (Probe.invoke name b x).2) = S (length (awaiting x))
    | _ => Probe.invoke name b x = Probe.complete name b x
    end.
Proof.
  destruct x as [h waiting].
  assert (Hlast : ∀ r : Reaction (list Probe.Call),
            (waiting ++ [r]) !! length waiting = Some r
            ∧ delete (length waiting) (waiting ++ [r]) = waiting).
  { intros r. split; [by apply list_lookup_middle|].
    induction waiting as [|r' waiting IH]; [done|]. simpl. by rewrite IH. }
  unfold Probe.complete, Probe.invoke, invokeHandler, settlePromise.
  destruct b as [r|e|[v|reason]]; simpl.
  - unfold Probe.notify, Probe.onResolve. rewrite !callbacks_app. simpl.
    by rewrite !app_nil_r.
  - unfold Probe.notify, Probe.onReject. rewrite !callbacks_app. simpl.
    by rewrite !app_nil_r.
  - destruct (Hlast (thenReaction name Probe.onResolve Probe.onReject Probe.notify))
      as [-> ->]. simpl.
    unfold Probe.notify, Probe.onResolve. rewrite !callbacks_app, length_app. simpl.
    rewrite !app_nil_r. repeat split; try done; lia.
  - destruct (Hlast (thenReaction name Probe.onResolve Probe.onReject Probe.notify))
      as [-> ->]. simpl.
    unfold Probe.notify, Probe.onReject. rewrite !callbacks_app, length_app. simpl.
    rewrite !app_nil_r. repeat split; try done; lia.
Qed.

(** ** C6: submit *)

(** C6, as the code has it. [submit] completes normally and calls the
    submitter once, with a copy of the current values. On a mounted
    component it raises the submitting flag first; a submitter that returns
    resolves on the spot, one that throws rejects on the spot with the
    thrown value, and one that hands back a promise leaves [submitReaction]
    pending. On resolve the entry of the form is merged with null and then
    the flag is cleared, on reject it is merged with the reason and then
    the flag is cleared, provided the mounted flag is up at that moment;
    with the flag down the completion is dropped. On a component that is
    not mounted [submit] leaves the state as it is. *)
Theorem submit_protocol (w : World) (batched : bool) (event : option FormEvent) :
  let c := provider w in
  let given := JS.copy (values (state c)) in
  let after := (formSubmit batched event w).2 in
  (formSubmit batched event w).1 = Normal ()
  ∧ invocations (trace (provider after)) = invocations (trace c) ++ [("form", given)]
  ∧ match submitter (props c) given "form" with
    | Normal Thenable =>
        pending after = pending w ++ [submitReaction]
        ∧ state (provider after) =
            if canSetStateFromAsync c then submitting c else state c
    | Normal (Plain _) =>
        pending after = pending w
        ∧ state (provider after) =
            if canSetStateFromAsync c then submitted c (JS.Single JS.Null) else state c
    | Abrupt reason =>
        pending after = pending w
        ∧ state (provider after) =
            if canSetStateFromAsync c then submitted c reason else state c
    end
  ∧ (∀ (later : FormStateProvider) (before behind : list (Reaction Live)) (v reason : JS.any),
       let resolved :=
         (settle batched (length before) (Fulfilled v)
            {| provider := later; pending := before ++ submitReaction :: behind |}).2 in
       let rejected :=
         (settle batched (length before) (Rejected reason)
            {| provider := later; pending := before ++ submitReaction :: behind |}).2 in
       state (provider resolved) =
         (if canSetStateFromAsync later then submitted later (JS.Single JS.Null)
          else state later)
       ∧ state (provider rejected) =
         (if canSetStateFromAsync later then submitted later reason else state later)
       ∧ pending resolved = before ++ behind
       ∧ pending rejected = before ++ behind)
  ∧ onFulfilled submitReaction =
      (λ l, notify [str "form"; str "resolve"]
              (endSubmitting (updateErrors "form" (JS.Single JS.Null) l)))
  ∧ onRejected submitReaction =
      (λ reason l, notify [str "form"; str "reject"; reason]
                     (endSubmitting (updateErrors "form" reason l))).
Proof.
  intros c given after. subst c given after.
  destruct w as [[p [vals errs sub] flag t] pend].
  unfold submitted, submitting.
  split; [|split; [|split; [|split; [|done]]]].
  - by destruct batched, flag, event as [[[|]]|]; eval_cases.
  - destruct batched, flag, event as [[[|]]|]; eval_cases;
      rewrite ?invocations_app; simpl; by rewrite ?app_nil_r.
  - destruct batched, flag, event as [[[|]]|]; eval_handlers;
      destruct (submitter p (JS.copy vals) "form") as [[?|]|?]; by eval_handlers.
  - intros later before behind v reason.
    assert (Hi : (before ++ submitReaction :: behind) !! length before = Some submitReaction)
      by apply list_lookup_middle, eq_refl.
    assert (Hd : delete (length before) (before ++ submitReaction :: behind) = before ++ behind).
    { induction before as [|r before IH]; [done|]. simpl. by rewrite IH. }
    destruct later as [p' [vals' errs' sub'] flag' t'].
    unfold settle, dispatch, settlePromise. simpl. rewrite Hi, Hd.
    by destruct batched, flag'.
Qed.

(** C6, as stated, fails: a submitter that resolves after unmount leaves
    the submitting flag up and the errors without an entry for the form;
    and on a component that is not mounted [submit] does not raise the
    submitting flag at all. *)
Lemma submit_protocol_counterexample :
  let w := run false [Mount; Submit None; Unmount] (create Examples.signup) in
  let w' := (settle false 0 (Fulfilled (JS.Single JS.Null)) w).2 in
  let unmounted := run false [Mount; Unmount] (create Examples.signup) in
  submitter Examples.signup (JS.copy (values (state (provider w)))) "form" = Normal Thenable
  ∧ isSubmitting (state (provider w')) ≠ false
  ∧ errors (state (provider w')) !! "form" ≠ Some JS.Null
  ∧ errors (state (provider w'))
    ≠ mergeErrors (defaultValues Examples.signup) (errors (state (provider w))) "form"
        (JS.Single JS.Null)
  ∧ isSubmitting (state (provider (formSubmit false None unmounted).2)) ≠ true.
Proof.
  split; [reflexivity|]. split; [|split; [|split]].
  - vm_compute. discriminate.
  - vm_compute. discriminate.
  - intros H. apply (f_equal (λ m : FormErrors, m !! "form")) in H.
    vm_compute in H. discriminate.
  - vm_compute. discriminate.
Qed.

(** ** C7: change validates the value just assigned *)

(** C7. [change] of a declared field that has a validator, own or
    inherited, with concurrent validation asked for (or left to its
    default), calls that validator once, with the values held by the
    component overridden at the field by the new value: what the validator
    reads at the field is the new value (converted as the assignment to the
    state converts it), whether or not the assignment to the state has been
    carried out yet, and what the validator answers on these values decides
    what follows: a promise leaves [validatorReaction] pending, a return
    clears the error of the field and a throw sets it, on a mounted
    component. *)
Theorem change_validates_new_value (w : World) (batched : bool) (name : string)
    (v : JS.value) (validateConcurrently : option bool)
    (registry : Registry) (validator : Handler) :
  is_Some (defaultValues (props (provider w)) !! name) →
  validators (props (provider w)) = Some registry →
  member registry name = Some validator →
  default true validateConcurrently = true →
  let c := provider w in
  let given := JS.set (values (state c)) name v in
  let after := (formChange batched name v validateConcurrently w).2 in
  invocations (trace (provider after)) = invocations (trace c) ++ [(name, given)]
  ∧ JS.get given name = JS.toJS v
  ∧ values (state (provider after))
    = (if canSetStateFromAsync c then given else values (state c))
  ∧ match validator given name with
    | Normal Thenable =>
        pending after = pending w ++ [validatorReaction name]
        ∧ errors (state (provider after)) = errors (state c)
    | Normal (Plain _) =>
        pending after = pending w
        ∧ errors (state (provider after)) =
            (if canSetStateFromAsync c
             then mergeErrors (defaultValues (props c)) (errors (state c)) name
                    (JS.Single JS.Null)
             else errors (state c))
    | Abrupt reason =>
        pending after = pending w
        ∧ errors (state (provider after)) =
            (if canSetStateFromAsync c
             then mergeErrors (defaultValues (props c)) (errors (state c)) name reason
             else errors (state c))
    end.
Proof.
  intros Hdeclared Hregistry Hvalidator Hconcurrent c given after. subst c given after.
  assert (Hdefined : bool_decide (is_Some (defaultValues (props (provider w)) !! name))
                     = true) by (by apply bool_decide_eq_true_2).
  clear Hdeclared. rename Hdefined into Hdeclared.
  destruct w as [[p [vals errs sub] flag t] pend]. simpl in Hdeclared, Hregistry |- *.
  assert (validateConcurrently = None ∨ validateConcurrently = Some true) as [-> | ->]
    by (destruct validateConcurrently as [[|]|]; auto; discriminate).
  all: split; [|split; [unfold JS.get; by rewrite set_lookup, decide_True|split]].
  all: destruct batched, flag; eval_handlers;
    rewrite Hdeclared; eval_handlers; rewrite Hregistry; eval_handlers;
    rewrite Hvalidator; eval_handlers; rewrite ?set_again;
    destruct (validator (JS.set vals name v) name) as [[?|]|?]; eval_handlers;
    rewrite ?invocations_app; simpl; by rewrite ?app_nil_r.
Qed.

Lemma change_validates_new_value_witness :
  let w := run true [Mount] (create Examples.signup) in
  invocations (trace (provider (formChange true "age" (JS.Number 10) None w).2))
  = [("age", JS.set (defaultValues Examples.signup) "age" (JS.Number 10))]
  ∧ pending (formChange true "age" (JS.Number 10) None w).2 = [validatorReaction "age"].
Proof.
  intros w.
  destruct (change_validates_new_value w true "age" (JS.Number 10) None
              Examples.remoteAge (λ _ _, Normal Thenable))
    as (Hcalls & _ & _ & Hpending & _);
    [by eexists | reflexivity | reflexivity | reflexivity |].
  split; [exact Hcalls | exact Hpending].
Defined.

(** ** C8: an undeclared name *)

(** C8. For a name that is not a declared field, [change] and [validate]
    complete normally, leave the state, the mounted flag and the pending
    promises as they were, and call no validator: all that happens is the
    report of the field-name check. *)
Theorem undeclared_name_noop (w : World) (batched : bool) (name : string)
    (value : JS.value) (validateConcurrently : option bool) :
  defaultValues (props (provider w)) !! name = None →
  formChange batched name value validateConcurrently w =
    (Normal (),
     {| provider := {| props := props (provider w);
                       state := state (provider w);
                       canSetStateFromAsync := canSetStateFromAsync (provider w);
                       trace := trace (provider w) ++ [Warned "props.formChange" name] |};
        pending := pending w |})
  ∧ formValidate batched name w =
    (Normal (),
     {| provider := {| props := props (provider w);
                       state := state (provider w);
                       canSetStateFromAsync := canSetStateFromAsync (provider w);
                       trace := trace (provider w) ++ [Warned "props.formValidate" name] |};
        pending := pending w |})
  ∧ invocations (trace (provider (formChange batched name value validateConcurrently w).2))
    = invocations (trace (provider w))
  ∧ invocations (trace (provider (formValidate batched name w).2))
    = invocations (trace (provider w)).
Proof.
  intros Hname.
  assert (Hundeclared : bool_decide (is_Some (defaultValues (props (provider w)) !! name))
                        = false).
  { rewrite Hname. apply bool_decide_eq_false_2. by intros [? ?]. }
  destruct w as [[p s flag t] pend], batched; simpl in Hundeclared |- *.
  all: repeat split; eval_handlers; rewrite Hundeclared; eval_handlers; try done.
  all: rewrite invocations_app; simpl; by rewrite app_nil_r.
Qed.

Lemma undeclared_name_noop_witness :
  (formChange true "phone" (JS.String "1") None (create Examples.signup)).1 = Normal ()
  ∧ state (provider (formValidate true "phone" (create Examples.signup)).2)
    = state (provider (create Examples.signup)).
Proof.
  destruct (undeclared_name_noop (create Examples.signup) true "phone" (JS.String "1") None)
    as (Hchange & Hvalidate & _); [reflexivity|].
  rewrite Hchange, Hvalidate. split; reflexivity.
Defined.

(** ** C9: pristine *)

Lemma isPristine_from_true (names : list string) (current defaults : FormValues) :
  isPristine_from names current defaults = true ↔
  ∀ name, name ∈ names →
    JS.strict_eq (JS.get current name) (JS.get defaults name) = true.
Proof.
  induction names as [|n names IH]; simpl.
  - split; [|done]. intros _ name Hname. by apply elem_of_nil in Hname.
  - unfold JS.strict_ne.
    destruct (JS.strict_eq (JS.get current n) (JS.get defaults n)) eqn:Hn; simpl.
    + rewrite IH. split.
      * intros H name [-> | Hin]%elem_of_cons; auto.
      * intros H name Hin. apply H. by right.
    + split; [done|]. intros H. rewrite <- Hn. apply H. by left.
Qed.

Lemma isPristine_true (c : FormStateProvider) :
  isPristine c = true ↔
  ∀ name, is_Some (values (state c) !! name) →
    JS.strict_eq (JS.get (values (state c)) name) (JS.get (defaultValues (props c)) name)
    = true.
Proof.
  unfold isPristine. rewrite isPristine_from_true.
  split; intros H name Hname; apply H.
  - destruct Hname as [v Hv]. apply list_elem_of_fmap. exists (name, v).
    split; [done|]. by apply elem_of_map_to_list.
  - apply list_elem_of_fmap in Hname as [[k v] [-> Hkv]].
    apply elem_of_map_to_list in Hkv. by eexists.
Qed.

(** What [change] does to the values and to the props, whatever else it
    triggers. *)
Lemma formChange_values (w : World) (batched : bool) (name : string) (v : JS.value)
    (validateConcurrently : option bool) :
  props (provider (formChange batched name v validateConcurrently w).2) = props (provider w)
  ∧ values (state (provider (formChange batched name v validateConcurrently w).2)) =
      if bool_decide (is_Some (defaultValues (props (provider w)) !! name))
         && canSetStateFromAsync (provider w)
      then JS.set (values (state (provider w))) name v
      else values (state (provider w)).
Proof.
  destruct w as [[p [vals errs sub] flag t] pend].
  by destruct batched, flag, validateConcurrently as [[|]|]; eval_cases.
Qed.

(** C9, as the code has it. On a mounted component, if every other field
    held, once converted the way an assignment converts the values,
    strictly equals its default, then after [change] of a declared field to
    its default value [d] the form is pristine, provided [d], converted
    likewise, strictly equals itself: which it does unless it is NaN or
    carries a [toJS] method. (The fields a component holds are the declared
    ones, see [reachable_fields] below.) *)
Theorem pristine_round_trip (w : World) (batched : bool) (name : string) (d : JS.value)
    (validateConcurrently : option bool) :
  canSetStateFromAsync (provider w) = true →
  defaultValues (props (provider w)) !! name = Some d →
  JS.strict_eq (JS.toJS d) d = true →
  (∀ other, other ≠ name → is_Some (values (state (provider w)) !! other) →
     JS.strict_eq (JS.toJS (JS.get (values (state (provider w))) other))
       (JS.get (defaultValues (props (provider w))) other) = true) →
  formIsPristine (render (provider (formChange batched name d validateConcurrently w).2))
  = true.
Proof.
  intros Hflag Hd Hrefl Hothers. simpl. apply isPristine_true.
  destruct (formChange_values w batched name d validateConcurrently) as [-> ->].
  rewrite Hflag, bool_decide_eq_true_2 by (by eexists). simpl.
  intros field Hfield. unfold JS.get in *. rewrite set_lookup in Hfield |- *.
  case_decide as Hname.
  - subst field. by rewrite Hd.
  - destruct (values (state (provider w)) !! field) as [held|] eqn:Hheld;
      [|by destruct Hfield].
    specialize (Hothers field (not_eq_sym Hname)). rewrite Hheld in Hothers.
    simpl in *. apply Hothers. by eexists.
Qed.

Lemma pristine_round_trip_witness :
  let w := run true [Mount; Change "age" (JS.Number 42) None] (create Examples.signup) in
  formIsPristine (render (provider w)) = false
  ∧ formIsPristine (render (provider (formChange true "age" (JS.Number 0) None w).2)) = true.
Proof.
  intros w. split; [reflexivity|].
  apply pristine_round_trip; [reflexivity | reflexivity | reflexivity |].
  intros other Hother [held Hheld].
  destruct (decide (other = "email")) as [-> | Hemail]; [reflexivity|].
  assert (Hvalues : values (state (provider w))
                    = <["age" := JS.Number 42]> (defaultValues Examples.signup))
    by (vm_compute; reflexivity).
  rewrite Hvalues in Hheld. simpl in Hheld.
  rewrite !lookup_insert_ne, lookup_singleton_ne in Hheld by done. discriminate.
Defined.

(** C9, as stated, fails: a field whose default is NaN never equals its
    default, so that assigning the default leaves the form not pristine;
    so does a field whose default carries a [toJS] method, since the
    assignment stores the plain copy; and after unmount the assignment of
    the default is dropped, so that a form that was not pristine stays
    so. *)
Lemma pristine_round_trip_counterexample :
  let w := run true [Mount] (create Examples.ratio) in
  let held := run true [Mount] (create Examples.tags) in
  let gone := run true [Mount; Change "age" (JS.Number 42) None; Unmount]
                (create Examples.signup) in
  (defaultValues (props (provider w)) !! "ratio" = Some (JS.Number nan)
   ∧ (∀ other, other ≠ "ratio" → values (state (provider w)) !! other = None)
   ∧ formIsPristine
       (render (provider (formChange true "ratio" (JS.Number nan) None w).2)) = false)
  ∧ (defaultValues (props (provider held)) !! "tags" = Some (JS.Collection 1 2)
     ∧ formIsPristine (render (provider held)) = true
     ∧ formIsPristine
         (render (provider (formChange true "tags" (JS.Collection 1 2) None held).2))
       = false)
  ∧ (defaultValues (props (provider gone)) !! "age" = Some (JS.Number 0)
     ∧ JS.get (values (state (provider gone))) "email"
       = JS.get (defaultValues (props (provider gone))) "email"
     ∧ formIsPristine
         (render (provider (formChange true "age" (JS.Number 0) None gone).2)) = false).
Proof.
  split; [|by repeat split].
  split; [reflexivity|]. split; [|reflexivity].
  intros other Hother.
  assert (Hvalues : values (state (provider (run true [Mount] (create Examples.ratio))))
                    = {[ "ratio" := JS.Number nan ]}) by (vm_compute; reflexivity).
  rewrite Hvalues. by apply lookup_singleton_ne.
Qed.

(** ** C10: the change adaptor *)

(** C10. The change handler handed to the form forwards, for the element
    the event comes from, its [checked] flag when its type is [checkbox]
    and its [value] otherwise, under the element's name and with the
    validation flag set (the default). *)
Theorem changeAdaptor_forwards (batched : bool) (e : DOM.Event) (w : World) :
  let forwarded :=
    if bool_decide (DOM.type (DOM.target e) = "checkbox")
    then JS.Bool (DOM.checked (DOM.target e))
    else JS.String (DOM.value (DOM.target e)) in
  formOnChange batched e w
    = formChange batched (DOM.name (DOM.target e)) forwarded (Some true) w
  ∧ ∀ (R : Type) (prop : string → JS.value → option bool → R)
      (validateConcurrently : option bool),
      changeAdaptor prop validateConcurrently e
      = prop (DOM.name (DOM.target e)) forwarded (Some (default true validateConcurrently)).
Proof.
  intros forwarded. subst forwarded.
  unfold formOnChange, changeAdaptor, JS.strict_ne, JS.strict_eq.
  by destruct (bool_decide (DOM.type (DOM.target e) = "checkbox")).
Qed.

(** ** The fields are fixed *)

(** What a turn can do to the values: nothing, put the defaults back, or
    assign one declared field. The props stay. *)
Definition values_step (before after : FormStateProvider) : Prop :=
  props after = props before
  ∧ (values (state after) = values (state before)
     ∨ values (state after) = defaultValues (props before)
     ∨ ∃ name v, is_Some (defaultValues (props before) !! name)
                 ∧ values (state after) = JS.set (values (state before)) name v).

Lemma formChange_values_step (batched : bool) (name : string) (v : JS.value)
    (validateConcurrently : option bool) (w : World) :
  values_step (provider w) (provider (formChange batched name v validateConcurrently w).2).
Proof.
  destruct (formChange_values w batched name v validateConcurrently) as [Hprops Hvalues].
  split; [done|]. rewrite Hvalues.
  case_bool_decide; [|by left]. destruct (canSetStateFromAsync (provider w)); [|by left].
  right. right. by exists name, v.
Qed.

Lemma formValidate_values_step (batched : bool) (name : string) (w : World) :
  values_step (provider w) (provider (formValidate batched name w).2).
Proof.
  destruct w as [[p [vals errs sub] flag t] pend].
  split; [|left]; by destruct batched, flag; eval_cases.
Qed.

Lemma formSubmit_values_step (batched : bool) (event : option FormEvent) (w : World) :
  values_step (provider w) (provider (formSubmit batched event w).2).
Proof.
  destruct w as [[p [vals errs sub] flag t] pend].
  split; [|left]; by destruct batched, flag, event as [[[|]]|]; eval_cases.
Qed.

Lemma settle_values_step (batched : bool) (i : nat) (s : Settlement) (w : World) :
  Forall attached (pending w) →
  values_step (provider w) (provider (settle batched i s w).2).
Proof.
  intros Hw. destruct w as [[p [vals errs sub] flag t] pend].
  unfold settle, dispatch, settlePromise. simpl in *.
  destruct (pend !! i) as [r|] eqn:Hi; simpl.
  - assert (Hr : attached r) by (eapply Forall_lookup_1; eauto).
    split; [|left]; by destruct Hr, s, batched, flag.
  - split; [|left]; by destruct batched.
Qed.

Lemma step_values_step (batched : bool) (a : Action) (w : World) :
  Forall attached (pending w) →
  values_step (provider w) (provider (step batched a w).2).
Proof.
  intros Hw. destruct a; unfold step.
  - destruct w as [[p st flag t] pend]. split; [|left]; by destruct batched.
  - destruct w as [[p st flag t] pend]. split; [|left]; by destruct batched.
  - apply formChange_values_step.
  - apply formValidate_values_step.
  - apply formSubmit_values_step.
  - destruct w as [[p st [|] t] pend], batched; split; auto.
  - apply formChange_values_step.
  - apply formValidate_values_step.
  - by apply settle_values_step.
Qed.

(** The props of a component never change, and the fields it holds values
    for are, at any time, the declared ones. *)
Lemma reachable_fields (p : ProviderProps) (w : World) :
  reachable p w →
  props (provider w) = p
  ∧ dom (values (state (provider w))) = dom (defaultValues p).
Proof.
  intros Hreach. induction Hreach as [|batched a w Hreach [Hprops Hdom]]; [done|].
  destruct (step_values_step batched a w (reachable_attached p w Hreach))
    as [Hp [Hv | [Hv | (name & v & Hname & Hv)]]];
    rewrite Hp, Hv, ?Hprops; split; try done.
  unfold JS.set, JS.copy. rewrite dom_fmap_L, dom_insert_L, Hdom. rewrite Hprops in Hname.
  apply subseteq_union_1_L, singleton_subseteq_l. by apply elem_of_dom.
Qed.

(** ** Scenarios *)

(** A change without validation: the value is assigned, the errors are as
    they were, and the form is no longer pristine. *)
Example scenario_change_without_validation :
  let w := run true [Mount; Change "email" (JS.String "a@b.com") (Some false)]
             (create Examples.signup) in
  JS.get (formValues (render (provider w))) "email" = JS.String "a@b.com"
  ∧ formErrors (render (provider w)) = ∅
  ∧ formIsPristine (render (provider w)) = false
  ∧ invocations (trace (provider w)) = [].
Proof. repeat split. Qed.

(** A validator that rejects sets the error of its field; once it accepts
    a later value the error is cleared. *)
Example scenario_validation :
  let rejected := run true
      [Mount; Change "age" (JS.Number 10) None;
       Settle 0 (Rejected (str "too young"))] (create Examples.signup) in
  let accepted := run true
      [Change "age" (JS.Number 20) None; Settle 0 (Fulfilled (JS.Single JS.Null))]
      rejected in
  JS.get (formErrors (render (provider rejected))) "age" = JS.String "too young"
  ∧ formHasError (render (provider rejected)) = true
  ∧ JS.get (formErrors (render (provider accepted))) "age" = JS.Null
  ∧ formHasError (render (provider accepted)) = false.
Proof. repeat split. Qed.

(** Completions for different fields commute; for the same field the last
    one to arrive wins, also when it was started first. *)
Example scenario_last_completion_wins :
  let started := run true
      [Mount; Change "age" (JS.Number 10) None; Change "age" (JS.Number 20) None]
      (create Examples.signup) in
  let w := run true
      [Settle 1 (Fulfilled (JS.Single JS.Null)); Settle 0 (Rejected (str "too young"))]
      started in
  JS.get (formValues (render (provider w))) "age" = JS.Number 20
  ∧ JS.get (formErrors (render (provider w))) "age" = JS.String "too young".
Proof. repeat split. Qed.

(** Reset after changes, errors and a submission under way. *)
Example scenario_reset :
  let w := run false
      [Mount; Change "email" (JS.String "a@b.com") None; Submit None;
       Change "age" (JS.Number 10) None; Settle 1 (Rejected (str "too young")); Reset]
      (create Examples.signup) in
  state (provider w)
  = {| values := defaultValues Examples.signup; errors := ∅; isSubmitting := false |}.
Proof. reflexivity. Qed.

(** * Further properties of the component *)

(** ** hasError and the first render *)

Lemma hasError_from_true (names : list string) (errs : FormErrors) :
  hasError_from names errs = true ↔
  ∃ name, name ∈ names ∧ JS.is_nullish (JS.get errs name) = false.
Proof.
  induction names as [|n names IH]; simpl.
  - split; [done|]. intros (name & Hname & _). by apply elem_of_nil in Hname.
  - destruct (JS.is_nullish (JS.get errs n)) eqn:Hn; simpl.
    + rewrite IH. split.
      * intros (name & Hin & Hname). exists name. split; [by right | done].
      * intros (name & [-> | Hin]%elem_of_cons & Hname); [congruence|]. by exists name.
    + split; [|done]. intros _. exists n. split; [by left | done].
Qed.

Lemma hasError_holds (c : FormStateProvider) :
  hasError c = true ↔
  ∃ name v, errors (state c) !! name = Some v ∧ JS.is_nullish v = false.
Proof.
  unfold hasError. rewrite hasError_from_true. split.
  - intros (name & Hname & Hv).
    apply list_elem_of_fmap in Hname as [[k v] [-> Hkv]].
    apply elem_of_map_to_list in Hkv. simpl in *.
    exists k, v. split; [done|]. unfold JS.get in Hv. by rewrite Hkv in Hv.
  - intros (name & v & Hname & Hv). exists name. split.
    + apply list_elem_of_fmap. exists (name, v). split; [done|].
      by apply elem_of_map_to_list.
    + unfold JS.get. by rewrite Hname.
Qed.

(** The form is told of an error exactly when some key of the errors
    carries a value other than null and undefined: a key that is there with
    a null entry does not count, and neither does a key that is missing. *)
Theorem hasError_true (c : FormStateProvider) :
  formHasError (render c) = true ↔
  ∃ name, JS.is_nullish (JS.get (formErrors (render c)) name) = false.
Proof.
  simpl. rewrite hasError_holds. unfold JS.get. split.
  - intros (name & v & Hname & Hv). exists name. by rewrite Hname.
  - intros [name Hname]. destruct (errors (state c) !! name) as [v|] eqn:Hv; [|done].
    by exists name, v.
Qed.


(** ** change and validate *)

Lemma formChange_frame (w : World) (batched : bool) (name : string) (v : JS.value)
    (validateConcurrently : option bool) :
  (formChange batched name v validateConcurrently w).1 = Normal ()
  ∧ isSubmitting (state (provider (formChange batched name v validateConcurrently w).2))
    = isSubmitting (state (provider w))
  ∧ canSetStateFromAsync (provider (formChange batched name v validateConcurrently w).2)
    = canSetStateFromAsync (provider w).
Proof.
  destruct w as [[p [vals errs sub] flag t] pend].
  by destruct batched, flag, validateConcurrently as [[|]|]; eval_cases.
Qed.



(** Where no validation is due, because [change] is told not to validate,
    or no validators are given, or the validators have no member of the
    field's name, neither own nor inherited, [change] calls no validator,
    leaves no promise pending and leaves the errors as they were. *)
Theorem change_without_validation (w : World) (batched : bool) (name : string)
    (v : JS.value) (validateConcurrently : option bool) :
  validateConcurrently = Some false
  ∨ validators (props (provider w)) = None
  ∨ (∃ registry, validators (props (provider w)) = Some registry
                 ∧ member registry name = None) →
  let after := (formChange batched name v validateConcurrently w).2 in
  invocations (trace (provider after)) = invocations (trace (provider w))
  ∧ pending after = pending w
  ∧ errors (state (provider after)) = errors (state (provider w)).
Proof.
  intros Hno after. subst after.
  destruct w as [[p [vals errs sub] flag t] pend]. simpl in Hno.
  destruct Hno as [-> | [Hnone | (registry & Hsome & Hname)]].
  - destruct batched, flag; eval_cases; rewrite ?invocations_app; simpl;
      by rewrite ?app_nil_r.
  - destruct batched, flag, validateConcurrently as [[|]|]; eval_handlers;
      destruct (bool_decide (is_Some (defaultValues p !! name))); eval_handlers;
      rewrite ?Hnone; eval_handlers; rewrite ?invocations_app; simpl;
      by rewrite ?app_nil_r.
  - destruct batched, flag, validateConcurrently as [[|]|]; eval_handlers;
      destruct (bool_decide (is_Some (defaultValues p !! name))); eval_handlers;
      rewrite ?Hsome; eval_handlers; rewrite ?Hname; eval_handlers;
      rewrite ?invocations_app; simpl; by rewrite ?app_nil_r.
Qed.

Lemma change_without_validation_witness :
  let w := run true [Mount] (create Examples.signup) in
  pending (formChange true "email" (JS.String "a@b.com") None w).2 = pending w
  ∧ pending (formChange true "age" (JS.Number 10) (Some false) w).2 = pending w.
Proof.
  intros w. split.
  - destruct (change_without_validation w true "email" (JS.String "a@b.com") None)
      as (_ & Hpending & _); [|exact Hpending].
    right. right. exists Examples.remoteAge. split; reflexivity.
  - destruct (change_without_validation w true "age" (JS.Number 10) (Some false))
      as (_ & Hpending & _); [by left | exact Hpending].
Defined.

Lemma set_held (o : JS.object) (name : string) :
  is_Some (o !! name) → JS.set o name (JS.get o name) = JS.copy o.
Proof.
  intros [v Hv]. unfold JS.set, JS.get. rewrite Hv. simpl. f_equal. by apply insert_id.
Qed.

(** [validate] of a declared field that has a validator, own or inherited,
    calls it once, with a copy of the values as the component holds them,
    and leaves the values and the submitting flag alone. What the validator
    answers on these values decides what follows: a promise leaves
    [validatorReaction] pending, a return clears the error of the field and
    a throw sets it, on a mounted component. The focus handler handed to
    the form does all this for the name of the element the handler is
    attached to. *)
Theorem validate_current_values (w : World) (batched : bool) (name : string)
    (registry : Registry) (validator : Handler) (e : DOM.Event) :
  is_Some (defaultValues (props (provider w)) !! name) →
  is_Some (values (state (provider w)) !! name) →
  validators (props (provider w)) = Some registry →
  member registry name = Some validator →
  DOM.name (DOM.currentTarget e) = name →
  let c := provider w in
  let given := JS.copy (values (state c)) in
  let after := (formValidate batched name w).2 in
  invocations (trace (provider after)) = invocations (trace c) ++ [(name, given)]
  ∧ values (state (provider after)) = values (state c)
  ∧ isSubmitting (state (provider after)) = isSubmitting (state c)
  ∧ match validator given name with
    | Normal Thenable =>
        pending after = pending w ++ [validatorReaction name]
        ∧ errors (state (provider after)) = errors (state c)
    | Normal (Plain _) =>
        pending after = pending w
        ∧ errors (state (provider after)) =
            (if canSetStateFromAsync c
             then mergeErrors (defaultValues (props c)) (errors (state c)) name
                    (JS.Single JS.Null)
             else errors (state c))
    | Abrupt reason =>
        pending after = pending w
        ∧ errors (state (provider after)) =
            (if canSetStateFromAsync c
             then mergeErrors (defaultValues (props c)) (errors (state c)) name reason
             else errors (state c))
    end
  ∧ formOnValidate batched e w = formValidate batched name w.
Proof.
  intros Hdeclared Hheld Hregistry Hvalidator He c given after. subst c given after.
  split; [|split; [|split; [|split]]];
    [| | | |unfold formOnValidate, focusAdaptor; by rewrite He].
  all: assert (Hdefined : bool_decide (is_Some (defaultValues (props (provider w)) !! name))
                          = true) by (by apply bool_decide_eq_true_2).
  all: destruct w as [[p [vals errs sub] flag t] pend];
    simpl in Hdefined, Hregistry, Hheld |- *.
  all: destruct batched, flag; eval_handlers;
    rewrite Hdefined; eval_handlers; rewrite Hregistry; eval_handlers;
    rewrite Hvalidator; eval_handlers; rewrite set_held by done;
    destruct (validator (JS.copy vals) name) as [[?|]|?]; eval_handlers;
    rewrite ?invocations_app; simpl; by rewrite ?app_nil_r.
Qed.

Lemma validate_current_values_witness :
  let w := run true [Mount; Change "valueOf" (JS.String "a") (Some false)]
             (create Examples.tags) in
  invocations (trace (provider (formValidate true "valueOf" w).2))
  = [("valueOf", JS.copy (values (state (provider w))))]
  ∧ JS.is_nullish (JS.get (errors (state (provider (formValidate true "valueOf" w).2)))
                     "valueOf") = false.
Proof.
  intros w.
  destruct (validate_current_values w true "valueOf"
              {| own := ∅; inherited := Examples.objectPrototype |}
              (λ _ _, Abrupt Examples.typeError)
              {| DOM.target := DOM.Build_Element "text" "tags" "" false;
                 DOM.currentTarget := DOM.Build_Element "text" "valueOf" "" false |})
    as (Hcalls & _ & _ & [_ Herrors] & _);
    [by eexists | by eexists | reflexivity | reflexivity | reflexivity |].
  split; [exact Hcalls|]. rewrite Herrors. reflexivity.
Defined.

(** [validate] of a declared field without a validator (no validators are
    given, or they have no member of the field's name, neither own nor
    inherited) changes nothing of the state and of the pending promises and
    calls nothing: it only tells the inspector. *)
Theorem validate_without_validator (w : World) (batched : bool) (name : string) :
  is_Some (defaultValues (props (provider w)) !! name) →
  validators (props (provider w)) = None
  ∨ (∃ registry, validators (props (provider w)) = Some registry
                 ∧ member registry name = None) →
  formValidate batched name w =
    (Normal (),
     {| provider := {| props := props (provider w);
                       state := state (provider w);
                       canSetStateFromAsync := canSetStateFromAsync (provider w);
                       trace := trace (provider w)
                                ++ [Notified [str "props.formValidate"; str name]] |};
        pending := pending w |}).
Proof.
  intros Hdeclared Hno.
  assert (Hdefined : bool_decide (is_Some (defaultValues (props (provider w)) !! name))
                     = true) by (by apply bool_decide_eq_true_2).
  destruct w as [[p st flag t] pend]. simpl in Hdefined, Hno |- *.
  destruct Hno as [Hnone | (registry & Hsome & Hname)].
  - destruct batched, flag; eval_handlers; rewrite Hdefined; eval_handlers;
      rewrite Hnone; by eval_handlers.
  - destruct batched, flag; eval_handlers; rewrite Hdefined; eval_handlers;
      rewrite Hsome; eval_handlers; rewrite Hname; by eval_handlers.
Qed.

Lemma validate_without_validator_witness :
  let w := run true [Mount] (create Examples.signup) in
  state (provider (formValidate true "email" w).2) = state (provider w)
  ∧ pending (formValidate true "email" w).2 = [].
Proof.
  intros w.
  rewrite (validate_without_validator w true "email"); [by split | by eexists |].
  right. exists Examples.remoteAge. split; reflexivity.
Defined.

(** ** Completions *)

(** What the completion of a validation does to the instance. *)
Lemma validator_completion (name : string) (s : Settlement) (c : FormStateProvider)
    (batched : bool) :
  let c' := flush (react (validatorReaction name) s
                     {| instance := c; batch := if batched then Some [] else None |}) in
  props c' = props c
  ∧ canSetStateFromAsync c' = canSetStateFromAsync c
  ∧ values (state c') = values (state c)
  ∧ isSubmitting (state c') = isSubmitting (state c).
Proof.
  destruct c as [p [vals errs sub] flag t]. by destruct s, batched, flag.
Qed.

(** What the completion of a submission does to the instance. *)
Lemma submit_completion (s : Settlement) (c : FormStateProvider) (batched : bool) :
  let c' := flush (react submitReaction s
                     {| instance := c; batch := if batched then Some [] else None |}) in
  props c' = props c
  ∧ canSetStateFromAsync c' = canSetStateFromAsync c
  ∧ values (state c') = values (state c)
  ∧ isSubmitting (state c')
    = (if canSetStateFromAsync c then false else isSubmitting (state c)).
Proof.
  destruct c as [p [vals errs sub] flag t]. by destruct s, batched, flag.
Qed.

Lemma settle_pending_reaction (batched : bool) (i : nat) (s : Settlement) (w : World)
    (r : Reaction Live) :
  pending w !! i = Some r →
  provider (settle batched i s w).2
  = flush (react r s {| instance := provider w;
                        batch := if batched then Some [] else None |}).
Proof.
  intros Hi. unfold settle, dispatch, settlePromise. simpl. by rewrite Hi.
Qed.

Lemma settle_nothing_pending (batched : bool) (i : nat) (s : Settlement) (w : World) :
  pending w !! i = None → (settle batched i s w).2 = w.
Proof.
  intros Hi. destruct w as [[p st flag t] pend].
  unfold settle, dispatch, settlePromise. simpl in *. rewrite Hi. by destruct batched.
Qed.

(** A completion, whenever it arrives and whatever it carries, never
    changes the props, the mounted flag or the value of any field; that of
    a validation leaves the submitting flag alone as well. *)
Theorem completion_keeps_values (p : ProviderProps) (w : World) (batched : bool)
    (i : nat) (s : Settlement) :
  reachable p w →
  let after := provider (settle batched i s w).2 in
  props after = props (provider w)
  ∧ canSetStateFromAsync after = canSetStateFromAsync (provider w)
  ∧ values (state after) = values (state (provider w))
  ∧ (∀ name, pending w !! i = Some (validatorReaction name) →
       isSubmitting (state after) = isSubmitting (state (provider w))).
Proof.
  intros Hreach after. subst after. apply reachable_attached in Hreach.
  destruct (pending w !! i) as [r|] eqn:Hi.
  - rewrite (settle_pending_reaction batched i s w r Hi).
    assert (Hr : attached r) by (eapply Forall_lookup_1; eauto).
    destruct Hr as [name|].
    + destruct (validator_completion name s (provider w) batched) as (? & ? & ? & ?).
      by repeat split.
    + destruct (submit_completion s (provider w) batched) as (? & ? & ? & _).
      repeat split; try done. intros name Hname.
      assert (Hsame : submitReaction = validatorReaction name) by congruence.
      apply (f_equal (λ r : Reaction Live,
               isSubmitting (state (instance (onFulfilled r
                 {| instance := {| props := props (provider w);
                                   state := {| values := ∅; errors := ∅;
                                               isSubmitting := true |};
                                   canSetStateFromAsync := true;
                                   trace := [] |};
                    batch := None |}))))) in Hsame.
      revert Hsame. eval_handlers. discriminate.
  - rewrite (settle_nothing_pending batched i s w Hi). by repeat split.
Qed.

Lemma completion_keeps_values_witness :
  let w := run true [Mount; Change "age" (JS.Number 10) None; Submit None]
             (create Examples.signup) in
  values (state (provider (settle true 0 (Rejected (str "too young")) w).2))
  = values (state (provider w))
  ∧ isSubmitting (state (provider (settle true 0 (Rejected (str "too young")) w).2)) = true.
Proof.
  intros w.
  destruct (completion_keeps_values Examples.signup w true 0 (Rejected (str "too young")))
    as (_ & _ & Hvalues & Hsubmitting); [apply reachable_run; constructor|].
  split; [exact Hvalues|]. by rewrite (Hsubmitting "age").
Defined.

(** ** The mounted flag *)

Lemma formValidate_frame (w : World) (batched : bool) (name : string) :
  canSetStateFromAsync (provider (formValidate batched name w).2)
  = canSetStateFromAsync (provider w).
Proof.
  destruct w as [[p [vals errs sub] flag t] pend]. by destruct batched, flag; eval_cases.
Qed.

Lemma formSubmit_frame (w : World) (batched : bool) (event : option FormEvent) :
  canSetStateFromAsync (provider (formSubmit batched event w).2)
  = canSetStateFromAsync (provider w).
Proof.
  destruct w as [[p [vals errs sub] flag t] pend].
  by destruct batched, flag, event as [[[|]]|]; eval_cases.
Qed.

(** The mounted flag is raised by mounting, lowered by unmounting, and
    touched by nothing else: no call of the form and no completion. *)
Theorem mounted_flag (p : ProviderProps) (w : World) (batched : bool) (a : Action) :
  reachable p w →
  canSetStateFromAsync (provider (step batched a w).2) =
    match a with
    | Mount => true
    | Unmount => false
    | _ => canSetStateFromAsync (provider w)
    end.
Proof.
  intros Hreach. destruct a; unfold step.
  - by destruct w as [[? ? ? ?] ?], batched.
  - by destruct w as [[? ? ? ?] ?], batched.
  - apply formChange_frame.
  - apply formValidate_frame.
  - apply formSubmit_frame.
  - by destruct w as [[? ? [|] ?] ?], batched.
  - unfold formOnChange, changeAdaptor. apply formChange_frame.
  - unfold formOnValidate, focusAdaptor. apply formValidate_frame.
  - apply reachable_attached in Hreach.
    destruct (pending w !! i) as [r|] eqn:Hi.
    + rewrite (settle_pending_reaction batched i s w r Hi).
      assert (Hr : attached r) by (eapply Forall_lookup_1; eauto).
      destruct Hr as [name|].
      * by destruct (validator_completion name s (provider w) batched) as (_ & ? & _).
      * by destruct (submit_completion s (provider w) batched) as (_ & ? & _).
    + by rewrite (settle_nothing_pending batched i s w Hi).
Qed.

Lemma mounted_flag_witness :
  let w := run true [Mount; Submit None] (create Examples.signup) in
  canSetStateFromAsync (provider (step true (Settle 0 (Fulfilled (JS.Single JS.Null))) w).2)
  = true
  ∧ canSetStateFromAsync (provider (step true Unmount w).2) = false.
Proof.
  intros w. split.
  - by rewrite (mounted_flag Examples.signup w true (Settle 0 (Fulfilled (JS.Single JS.Null))))
      by (apply reachable_run; constructor).
  - by rewrite (mounted_flag Examples.signup w true Unmount)
      by (apply reachable_run; constructor).
Defined.

(** ** The fields and the defaults *)

(** Whatever happens to a component, its props are the ones it was created
    with and the fields it holds a value for are the fields of the
    defaults: none is added, none is lost. *)
Theorem fields_are_fixed (p : ProviderProps) (w : World) :
  reachable p w →
  props (provider w) = p
  ∧ ∀ name, is_Some (formValues (render (provider w)) !! name)
            ↔ is_Some (defaultValues p !! name).
Proof.
  intros Hreach. destruct (reachable_fields p w Hreach) as [Hprops Hdom].
  split; [done|]. intros name. simpl. by rewrite <- !elem_of_dom, Hdom.
Qed.

Lemma fields_are_fixed_witness :
  let w := run false
      [Mount; Change "email" (JS.String "a@b.com") None; Change "phone" (JS.String "1") None;
       Submit None; Reset] (create Examples.signup) in
  formValues (render (provider w)) !! "phone" = None.
Proof.
  intros w.
  destruct (fields_are_fixed Examples.signup w) as [_ Hfields];
    [apply reachable_run; constructor|].
  apply eq_None_not_Some. rewrite Hfields. by intros [? ?].
Defined.

(** ** reset *)

(** On a mounted component [reset] gives back the state the constructor
    made, with no error to report, and a second [reset] changes nothing
    more; the promises that are pending stay pending. *)
Theorem reset_restores_first_state (w : World) (batched : bool) :
  canSetStateFromAsync (provider w) = true →
  let once := (formReset batched w).2 in
  let twice := (formReset batched once).2 in
  state (provider once) = state (constructor (props (provider w)))
  ∧ formHasError (render (provider once)) = false
  ∧ state (provider twice) = state (provider once)
  ∧ pending twice = pending w.
Proof.
  intros Hflag once twice. subst once twice.
  destruct w as [[p st flag t] pend]. simpl in Hflag. subst flag.
  assert (Hfirst : ∀ c, state c = state (constructor p) → hasError c = false).
  { intros c Hc. apply not_true_is_false. intros (name & v & Hname & _)%hasError_holds.
    rewrite Hc in Hname. simpl in Hname. by rewrite lookup_empty in Hname. }
  destruct batched; repeat split; try done; by apply Hfirst.
Qed.

Lemma reset_restores_first_state_witness :
  let w := run true
      [Mount; Change "age" (JS.Number 10) None; Settle 0 (Rejected (str "too young"))]
      (create Examples.signup) in
  formHasError (render (provider w)) = true
  ∧ state (provider (formReset true w).2) = state (constructor Examples.signup).
Proof.
  intros w. split; [reflexivity|].
  by destruct (reset_restores_first_state w true) as [Hstate _].
Defined.

(** ** submit *)

(** [submit] calls [preventDefault] when it is given an event that has it,
    and then before anything else; without an event, or with one that has
    no such method, it does not, and goes on all the same. In every case
    the inspector is told next. *)
Theorem submit_prevents_default (w : World) (batched : bool) (event : option FormEvent) :
  ∃ rest,
    trace (provider (formSubmit batched event w).2)
    = trace (provider w)
      ++ match event with
         | Some e => if preventDefault e then [DefaultPrevented] else []
         | None => []
         end
      ++ Notified [str "form"; str "props.formSubmit"] :: rest
    ∧ DefaultPrevented ∉ rest.
Proof.
  destruct w as [[p [vals errs sub] flag t] pend].
  destruct batched, flag, event as [[[|]]|]; eval_handlers;
    destruct (submitter p (JS.copy vals) "form") as [[?|]|?]; eval_handlers;
    rewrite <- ?app_assoc; simpl; (eexists; split; [reflexivity|]);
    intros Hin; repeat (apply elem_of_cons in Hin as [Hin | Hin]; [discriminate|]);
    by apply elem_of_nil in Hin.
Qed.

Lemma formSubmit_async (w : World) (batched : bool) (event : option FormEvent) :
  canSetStateFromAsync (provider w) = true →
  submitter (props (provider w)) (JS.copy (values (state (provider w)))) "form"
  = Normal Thenable →
  props (provider (formSubmit batched event w).2) = props (provider w)
  ∧ canSetStateFromAsync (provider (formSubmit batched event w).2) = true
  ∧ state (provider (formSubmit batched event w).2) = submitting (provider w)
  ∧ pending (formSubmit batched event w).2 = pending w ++ [submitReaction].
Proof.
  intros Hflag Hremote. destruct w as [[p [vals errs sub] flag t] pend].
  simpl in Hflag, Hremote. subst flag. unfold submitting.
  by destruct batched, event as [[[|]]|]; eval_handlers; rewrite Hremote.
Qed.

(** [submit] does not look at the submitting flag. Submitting twice with a
    remote submitter leaves two submissions pending, and on a mounted
    component the first of them to complete clears the flag although the
    other one is still under way. *)
Theorem submit_twice (w : World) (batched : bool) (first second : option FormEvent)
    (s : Settlement) :
  canSetStateFromAsync (provider w) = true →
  submitter (props (provider w)) (JS.copy (values (state (provider w)))) "form"
  = Normal Thenable →
  let both := (formSubmit batched second (formSubmit batched first w).2).2 in
  let one := (settle batched (length (pending w)) s both).2 in
  pending both = pending w ++ [submitReaction; submitReaction]
  ∧ isSubmitting (state (provider both)) = true
  ∧ isSubmitting (state (provider one)) = false
  ∧ pending one = pending w ++ [submitReaction].
Proof.
  intros Hflag Hremote both one. subst one both.
  destruct (formSubmit_async w batched first Hflag Hremote) as (Hp1 & Hf1 & Hs1 & Hq1).
  set (w1 := (formSubmit batched first w).2) in *.
  assert (Hremote1 : submitter (props (provider w1))
                       (JS.copy (values (state (provider w1)))) "form"
                     = Normal Thenable) by (by rewrite Hp1, Hs1).
  destruct (formSubmit_async w1 batched second Hf1 Hremote1) as (Hp2 & Hf2 & Hs2 & Hq2).
  set (w2 := (formSubmit batched second w1).2) in *.
  assert (Hboth : pending w2 = pending w ++ [submitReaction; submitReaction])
    by (by rewrite Hq2, Hq1, <- app_assoc).
  assert (Hi : pending w2 !! length (pending w) = Some submitReaction)
    by (rewrite Hboth; by apply list_lookup_middle).
  split; [done|]. split; [by rewrite Hs2|]. split.
  - rewrite (settle_pending_reaction batched _ s w2 _ Hi).
    destruct (submit_completion s (provider w2) batched) as (_ & _ & _ & ->).
    by rewrite Hf2.
  - rewrite settle_pending, Hboth.
    generalize (pending w). intros l. induction l as [|r l IH]; [done|].
    simpl. by rewrite IH.
Qed.

Lemma submit_twice_witness :
  let w := run true [Mount] (create Examples.signup) in
  let both := (formSubmit true None (formSubmit true None w).2).2 in
  isSubmitting (state (provider (settle true 0 (Fulfilled (JS.Single JS.Null)) both).2))
  = false
  ∧ pending (settle true 0 (Fulfilled (JS.Single JS.Null)) both).2 = [submitReaction].
Proof.
  intros w both. subst both.
  destruct (submit_twice w true None None (Fulfilled (JS.Single JS.Null)))
    as (_ & _ & Hflag & Hpending); [reflexivity | reflexivity |].
  split; [exact Hflag | exact Hpending].
Defined.

(** ** setState in and out of an event handler *)

(** Whether React collects the [setState] calls of a turn or carries each
    one out at once makes no difference to what a turn leaves behind: the
    component never relies on reading back what it has just assigned. *)
Theorem batching_is_irrelevant (p : ProviderProps) (w : World) (a : Action) :
  reachable p w →
  step true a w = step false a w.
Proof.
  intros Hreach. apply reachable_attached in Hreach.
  assert (Hchange : ∀ name v validateConcurrently,
            formChange true name v validateConcurrently w
            = formChange false name v validateConcurrently w).
  { intros name v validateConcurrently. destruct w as [[q [vals errs sub] flag t] pend].
    destruct flag, validateConcurrently as [[|]|]; eval_handlers;
      repeat (rewrite ?set_again;
              match goal with
              | |- context [match ?x with _ => _ end] => case_innermost x
              end; eval_handlers); by rewrite ?set_again. }
  assert (Hvalidate : ∀ name, formValidate true name w = formValidate false name w).
  { intros name. destruct w as [[q [vals errs sub] flag t] pend].
    by destruct flag; eval_cases. }
  destruct a; unfold step.
  - by destruct w as [[? ? ? ?] ?].
  - by destruct w as [[? ? ? ?] ?].
  - apply Hchange.
  - apply Hvalidate.
  - destruct w as [[q [vals errs sub] flag t] pend].
    by destruct flag, event as [[[|]]|]; eval_cases.
  - by destruct w as [[? ? [|] ?] ?].
  - unfold formOnChange, changeAdaptor. apply Hchange.
  - unfold formOnValidate, focusAdaptor. apply Hvalidate.
  - destruct w as [[q [vals errs sub] flag t] pend].
    unfold settle, dispatch, settlePromise. simpl in *.
    destruct (pend !! i) as [r|] eqn:Hi; simpl; [|done].
    assert (Hr : attached r) by (eapply Forall_lookup_1; eauto).
    by destruct Hr, s, flag.
Qed.

Lemma batching_is_irrelevant_witness :
  let w := run true [Mount; Change "age" (JS.Number 10) None] (create Examples.signup) in
  state (provider (step true (Settle 0 (Rejected (str "too young"))) w).2)
  = state (provider (step false (Settle 0 (Rejected (str "too young"))) w).2).
Proof.
  intros w.
  by rewrite (batching_is_irrelevant Examples.signup w
                (Settle 0 (Rejected (str "too young"))))
    by (apply reachable_run; constructor).
Defined.

(** ** Pristine *)

(** The form is pristine exactly when every field the component holds a
    value for strictly equals the default of that name, a missing default
    counting as undefined. *)
Theorem pristine_iff (c : FormStateProvider) :
  formIsPristine (render c) = true ↔
  ∀ name v, values (state c) !! name = Some v →
    JS.strict_eq v (JS.get (defaultValues (props c)) name) = true.
Proof.
  simpl. rewrite isPristine_true. unfold JS.get. split.
  - intros H name v Hv. specialize (H name (ex_intro _ v Hv)). by rewrite Hv in H.
  - intros H name [v Hv]. rewrite Hv. simpl. by eapply H.
Qed.

(** On a mounted component, [change] of a declared field to a value that,
    converted the way the assignment converts it, does not strictly equal
    the default of the field leaves the form not pristine, whatever the
    other fields hold. *)
Theorem change_makes_dirty (w : World) (batched : bool) (name : string) (v d : JS.value)
    (validateConcurrently : option bool) :
  canSetStateFromAsync (provider w) = true →
  defaultValues (props (provider w)) !! name = Some d →
  JS.strict_eq (JS.toJS v) d = false →
  formIsPristine (render (provider (formChange batched name v validateConcurrently w).2))
  = false.
Proof.
  intros Hflag Hd Hv. apply not_true_is_false. intros Hpristine. simpl in Hpristine.
  pose proof (proj1 (isPristine_true _) Hpristine) as Hfields. clear Hpristine.
  revert Hfields.
  destruct (formChange_values w batched name v validateConcurrently) as [-> ->].
  rewrite Hflag, bool_decide_eq_true_2 by (by eexists). simpl.
  intros H. specialize (H name). unfold JS.get in H.
  rewrite set_lookup, decide_True, Hd in H by done. simpl in H.
  specialize (H (ex_intro _ (JS.toJS v) eq_refl)). congruence.
Qed.

Lemma change_makes_dirty_witness :
  formIsPristine
    (render (provider (formChange true "tags" (JS.Collection 1 2) (Some false)
                         (run true [Mount] (create Examples.tags))).2)) = false.
Proof.
  apply (change_makes_dirty _ true "tags" (JS.Collection 1 2) (JS.Collection 1 2));
    reflexivity.
Defined.

(** ** What the inspector is told, and when *)

(** [change] of a declared field tells the inspector of the change, with
    the name and the new value, before any validator is called; [validate]
    tells it once everything it triggers on the spot is over. *)
Theorem notification_order (w : World) (batched : bool) (name : string) (v : JS.value)
    (validateConcurrently : option bool) :
  is_Some (defaultValues (props (provider w)) !! name) →
  (∃ rest,
     trace (provider (formChange batched name v validateConcurrently w).2)
     = trace (provider w)
       ++ Notified [str "props.formChange"; str name; JS.Single v] :: rest)
  ∧ (∃ rest,
       trace (provider (formValidate batched name w).2)
       = trace (provider w) ++ rest ++ [Notified [str "props.formValidate"; str name]]).
Proof.
  intros Hdeclared.
  assert (Hdefined : bool_decide (is_Some (defaultValues (props (provider w)) !! name))
                     = true) by (by apply bool_decide_eq_true_2).
  destruct w as [[p [vals errs sub] flag t] pend]. simpl in Hdefined |- *.
  split.
  - destruct batched, flag, validateConcurrently as [[|]|]; eval_handlers;
      rewrite Hdefined; eval_cases; rewrite <- ?app_assoc; simpl; by eexists.
  - destruct batched, flag; eval_handlers; rewrite Hdefined; eval_cases;
      rewrite <- ?app_assoc; simpl;
      first [ by exists []
            | by eexists [_]
            | by eexists [_; _]
            | by eexists [_; _; _]
            | by eexists [_; _; _; _] ].
Qed.

Lemma notification_order_witness :
  ∃ rest,
    trace (provider (formChange true "age" (JS.Number 10) None
                       (run true [Mount] (create Examples.signup))).2)
    = [Notified [str "mount"; str "form"];
       Notified [str "props.formChange"; str "age"; JS.Single (JS.Number 10)]] ++ rest.
Proof.
  destruct (notification_order (run true [Mount] (create Examples.signup)) true "age"
              (JS.Number 10) None) as [[rest Hrest] _]; [by eexists|].
  exists rest. exact Hrest.
Defined.
